(** * The [CustomUser] account model of [apps/users/models.py]

    A shallow embedding of the behavioural methods of the Django model
    [CustomUser]: the name helpers, the login gate, the failed-login counter,
    the time-based lock and the role queries.

    Conventions of the embedding.
    - A Python [str] is the list of its code points.
    - A Python [int] is an unbounded integer, [Z]; a Python [float] is an
      IEEE 754 binary64 value, a [spec_float].
    - A [datetime] is an instant counted in microseconds (its resolution)
      from 1970-01-01 00:00:00 on the time line of its own fields, a [Z];
      the representable ones run from year 1 to year 9999, and arithmetic
      that leaves that range raises [OverflowError].  A nullable column is
      an [option].
    - [timezone.now()] reads a clock that is part of the world the methods
      run in; the clock does not move while one method runs.
    - [self.save(update_fields=...)] is Django's; it is modelled as the
      UPDATE it issues: the listed columns of the account's stored row are
      overwritten with the values of the in-memory instance, and the
      statement is logged.  The database refuses an integer outside the
      range of its integer column: the statement then fails, the row is
      left as it was and the exception of the backend is raised.  Which
      backend holds the row is not part of the source; it is a parameter of
      the world.
    - An exception leaves the world as it was when it was raised: what a
      method assigned before stays assigned. *)

From Stdlib Require Import ZArith NArith List Bool String Ascii Lia SpecFloat.
Import ListNotations.

Local Open Scope Z_scope.

(** ** Python strings *)

Module PyStr.

Definition pystr := list N.

(** A literal of the source, as code points (ASCII literals only). *)
Definition lit (s : string) : pystr :=
  List.map N_of_ascii (list_ascii_of_string s).

(** [str.isspace] on one code point: the characters [str.strip()] removes. *)
Definition isspace (c : N) : bool :=
  (((9 <=? c) && (c <=? 13)) || ((28 <=? c) && (c <=? 32))
   || (c =? 133) || (c =? 160) || (c =? 5760)
   || ((8192 <=? c) && (c <=? 8202))
   || (c =? 8232) || (c =? 8233) || (c =? 8239) || (c =? 8287)
   || (c =? 12288))%N.

Fixpoint lstrip (s : pystr) : pystr :=
  match s with
  | [] => []
  | c :: s' => if isspace c then lstrip s' else s
  end.

Definition rstrip (s : pystr) : pystr := rev (lstrip (rev s)).

(** [s.strip()] *)
Definition strip (s : pystr) : pystr := rstrip (lstrip s).

(** Truth value of a [str]: the empty string is falsy. *)
Definition truthy (s : pystr) : bool :=
  match s with [] => false | _ :: _ => true end.

(** [a or b] on strings. *)
Definition or_ (a b : pystr) : pystr := if truthy a then a else b.

(** [f"{a} {b}"] *)
Definition fmt_space (a b : pystr) : pystr := a ++ 32%N :: b.

Definition blank (s : pystr) : Prop := Forall (fun c => isspace c = true) s.

(** No whitespace at either end. *)
Definition trimmed (s : pystr) : Prop :=
  (forall c t, s = c :: t -> isspace c = false) /\
  (forall c t, s = t ++ [c] -> isspace c = false).

End PyStr.
Import PyStr.

(** ** The model's columns *)

Record CustomUser := mkCustomUser {
  username : pystr;
  email : pystr;
  first_name : pystr;
  last_name : pystr;
  role : option pystr;
  is_active : bool;
  date_joined : Z;
  is_staff : bool;
  is_superuser : bool;
  phone_number : option pystr;
  is_email_verified : bool;
  is_2fa_enabled : bool;
  failed_login_attempts : Z;
  locked_until : option Z;
  last_login_ip : option pystr;
  profile_picture : option pystr;
  bio : option pystr
}.

Inductive Field :=
| F_username | F_email | F_first_name | F_last_name | F_role | F_is_active
| F_date_joined | F_is_staff | F_is_superuser | F_phone_number
| F_is_email_verified | F_is_2fa_enabled | F_failed_login_attempts
| F_locked_until | F_last_login_ip | F_profile_picture | F_bio.

Definition field_type (f : Field) : Type :=
  match f with
  | F_username | F_email | F_first_name | F_last_name => pystr
  | F_role | F_phone_number | F_last_login_ip | F_profile_picture | F_bio =>
      option pystr
  | F_is_active | F_is_staff | F_is_superuser | F_is_email_verified
  | F_is_2fa_enabled => bool
  | F_date_joined | F_failed_login_attempts => Z
  | F_locked_until => option Z
  end.

(** [getattr(u, f)] *)
Definition get_field (f : Field) : CustomUser -> field_type f :=
  match f with
  | F_username => username
  | F_email => email
  | F_first_name => first_name
  | F_last_name => last_name
  | F_role => role
  | F_is_active => is_active
  | F_date_joined => date_joined
  | F_is_staff => is_staff
  | F_is_superuser => is_superuser
  | F_phone_number => phone_number
  | F_is_email_verified => is_email_verified
  | F_is_2fa_enabled => is_2fa_enabled
  | F_failed_login_attempts => failed_login_attempts
  | F_locked_until => locked_until
  | F_last_login_ip => last_login_ip
  | F_profile_picture => profile_picture
  | F_bio => bio
  end.

(** [setattr(u, f, v)], as a new record. *)
Definition set_field (f : Field) : field_type f -> CustomUser -> CustomUser :=
  match f with
  | F_username => fun v u =>
      mkCustomUser v (email u) (first_name u) (last_name u) (role u)
        (is_active u) (date_joined u) (is_staff u) (is_superuser u)
        (phone_number u) (is_email_verified u) (is_2fa_enabled u)
        (failed_login_attempts u) (locked_until u) (last_login_ip u)
        (profile_picture u) (bio u)
  | F_email => fun v u =>
      mkCustomUser (username u) v (first_name u) (last_name u) (role u)
        (is_active u) (date_joined u) (is_staff u) (is_superuser u)
        (phone_number u) (is_email_verified u) (is_2fa_enabled u)
        (failed_login_attempts u) (locked_until u) (last_login_ip u)
        (profile_picture u) (bio u)
  | F_first_name => fun v u =>
      mkCustomUser (username u) (email u) v (last_name u) (role u)
        (is_active u) (date_joined u) (is_staff u) (is_superuser u)
        (phone_number u) (is_email_verified u) (is_2fa_enabled u)
        (failed_login_attempts u) (locked_until u) (last_login_ip u)
        (profile_picture u) (bio u)
  | F_last_name => fun v u =>
      mkCustomUser (username u) (email u) (first_name u) v (role u)
        (is_active u) (date_joined u) (is_staff u) (is_superuser u)
        (phone_number u) (is_email_verified u) (is_2fa_enabled u)
        (failed_login_attempts u) (locked_until u) (last_login_ip u)
        (profile_picture u) (bio u)
  | F_role => fun v u =>
      mkCustomUser (username u) (email u) (first_name u) (last_name u) v
        (is_active u) (date_joined u) (is_staff u) (is_superuser u)
        (phone_number u) (is_email_verified u) (is_2fa_enabled u)
        (failed_login_attempts u) (locked_until u) (last_login_ip u)
        (profile_picture u) (bio u)
  | F_is_active => fun v u =>
      mkCustomUser (username u) (email u) (first_name u) (last_name u)
        (role u) v (date_joined u) (is_staff u) (is_superuser u)
        (phone_number u) (is_email_verified u) (is_2fa_enabled u)
        (failed_login_attempts u) (locked_until u) (last_login_ip u)
        (profile_picture u) (bio u)
  | F_date_joined => fun v u =>
      mkCustomUser (username u) (email u) (first_name u) (last_name u)
        (role u) (is_active u) v (is_staff u) (is_superuser u)
        (phone_number u) (is_email_verified u) (is_2fa_enabled u)
        (failed_login_attempts u) (locked_until u) (last_login_ip u)
        (profile_picture u) (bio u)
  | F_is_staff => fun v u =>
      mkCustomUser (username u) (email u) (first_name u) (last_name u)
        (role u) (is_active u) (date_joined u) v (is_superuser u)
        (phone_number u) (is_email_verified u) (is_2fa_enabled u)
        (failed_login_attempts u) (locked_until u) (last_login_ip u)
        (profile_picture u) (bio u)
  | F_is_superuser => fun v u =>
      mkCustomUser (username u) (email u) (first_name u) (last_name u)
        (role u) (is_active u) (date_joined u) (is_staff u) v
        (phone_number u) (is_email_verified u) (is_2fa_enabled u)
        (failed_login_attempts u) (locked_until u) (last_login_ip u)
        (profile_picture u) (bio u)
  | F_phone_number => fun v u =>
      mkCustomUser (username u) (email u) (first_name u) (last_name u)
        (role u) (is_active u) (date_joined u) (is_staff u) (is_superuser u)
        v (is_email_verified u) (is_2fa_enabled u)
        (failed_login_attempts u) (locked_until u) (last_login_ip u)
        (profile_picture u) (bio u)
  | F_is_email_verified => fun v u =>
      mkCustomUser (username u) (email u) (first_name u) (last_name u)
        (role u) (is_active u) (date_joined u) (is_staff u) (is_superuser u)
        (phone_number u) v (is_2fa_enabled u)
        (failed_login_attempts u) (locked_until u) (last_login_ip u)
        (profile_picture u) (bio u)
  | F_is_2fa_enabled => fun v u =>
      mkCustomUser (username u) (email u) (first_name u) (last_name u)
        (role u) (is_active u) (date_joined u) (is_staff u) (is_superuser u)
        (phone_number u) (is_email_verified u) v
        (failed_login_attempts u) (locked_until u) (last_login_ip u)
        (profile_picture u) (bio u)
  | F_failed_login_attempts => fun v u =>
      mkCustomUser (username u) (email u) (first_name u) (last_name u)
        (role u) (is_active u) (date_joined u) (is_staff u) (is_superuser u)
        (phone_number u) (is_email_verified u) (is_2fa_enabled u)
        v (locked_until u) (last_login_ip u)
        (profile_picture u) (bio u)
  | F_locked_until => fun v u =>
      mkCustomUser (username u) (email u) (first_name u) (last_name u)
        (role u) (is_active u) (date_joined u) (is_staff u) (is_superuser u)
        (phone_number u) (is_email_verified u) (is_2fa_enabled u)
        (failed_login_attempts u) v (last_login_ip u)
        (profile_picture u) (bio u)
  | F_last_login_ip => fun v u =>
      mkCustomUser (username u) (email u) (first_name u) (last_name u)
        (role u) (is_active u) (date_joined u) (is_staff u) (is_superuser u)
        (phone_number u) (is_email_verified u) (is_2fa_enabled u)
        (failed_login_attempts u) (locked_until u) v
        (profile_picture u) (bio u)
  | F_profile_picture => fun v u =>
      mkCustomUser (username u) (email u) (first_name u) (last_name u)
        (role u) (is_active u) (date_joined u) (is_staff u) (is_superuser u)
        (phone_number u) (is_email_verified u) (is_2fa_enabled u)
        (failed_login_attempts u) (locked_until u) (last_login_ip u)
        v (bio u)
  | F_bio => fun v u =>
      mkCustomUser (username u) (email u) (first_name u) (last_name u)
        (role u) (is_active u) (date_joined u) (is_staff u) (is_superuser u)
        (phone_number u) (is_email_verified u) (is_2fa_enabled u)
        (failed_login_attempts u) (locked_until u) (last_login_ip u)
        (profile_picture u) v
  end.

(** Column [f] of [dst] overwritten with that of [src]. *)
Definition copy_field (src : CustomUser) (dst : CustomUser) (f : Field)
  : CustomUser :=
  set_field f (get_field f src) dst.

(** The field defaults of the class body, for the required columns given. *)
Definition new_user (uname mail first last : pystr) (joined : Z) : CustomUser :=
  mkCustomUser uname mail first last None true joined false false None
    false false 0 None None None None.

(** ** Exceptions *)

Inductive exn := OverflowError | ValueError | DataError.

Inductive Result (A : Type) :=
| Ok (a : A)
| Raise (e : exn).
Arguments Ok {A} a.
Arguments Raise {A} e.

Definition returned {A} (r : Result A) : bool :=
  match r with Ok _ => true | Raise _ => false end.

(** ** Durations and instants *)

(** What [duration_minutes] can be: an [int] or a [float]. *)
Inductive number :=
| Int (n : Z)
| Float (x : spec_float).
Coercion Int : Z >-> number.

(** [math.modf] of the dyadic number [v * 2^e]: its integer part, and the
    mantissa of its fractional part at the exponent [e]. *)
Definition modf (v e : Z) : Z * Z :=
  if 0 <=? e then (v * 2 ^ e, 0)
  else (Z.quot v (2 ^ (- e)), Z.rem v (2 ^ (- e))).

Definition signed (s : bool) (m : positive) : Z :=
  if s then Z.neg m else Z.pos m.

(** [y] plus the leftover [f * 2^e], of magnitude below 1, rounded to the
    nearest integer, a half going to the even neighbour. *)
Definition round_leftover (y f e : Z) : Z :=
  match Z.abs (2 * f) ?= 2 ^ (- e) with
  | Lt => y
  | Gt => y + Z.sgn f
  | Eq => if Z.odd y then y + Z.sgn f else y
  end.

Definition us_per_minute : Z := 60000000.

(** The microseconds [timedelta(minutes=d)] accumulates.  An [int] is
    multiplied exactly.  A [float] is split by [modf]; its integer part is
    multiplied exactly, its fractional part is multiplied in binary64
    arithmetic and split again, and what is left is rounded half-even. *)
Definition minutes_to_us (d : number) : Result Z :=
  match d with
  | Int n => Ok (n * us_per_minute)
  | Float S754_nan => Raise ValueError
  | Float (S754_infinity _) => Raise OverflowError
  | Float (S754_zero _) => Ok 0
  | Float (S754_finite s m e) =>
      let (intpart, fracpart) := modf (signed s m) e in
      let sum := intpart * us_per_minute in
      if fracpart =? 0 then Ok sum
      else
        match binary_normalize 53 1024 (us_per_minute * fracpart) e false with
        | S754_finite s' m' e' =>
            let (intpart', fracpart') := modf (signed s' m') e' in
            Ok (round_leftover (sum + intpart') fracpart' e')
        | S754_zero _ => Ok sum
        | S754_infinity _ => Raise OverflowError
        | S754_nan => Raise ValueError
        end
  end.

(** [timedelta(minutes=d)], in microseconds: a [timedelta] holds at most
    999999999 days either way. *)
Definition timedelta_minutes (d : number) : Result Z :=
  match minutes_to_us d with
  | Ok us =>
      if (-999999999 <=? us / 86400000000) && (us / 86400000000 <=? 999999999)
      then Ok us
      else Raise OverflowError
  | Raise e => Raise e
  end.

(** [datetime.min] and [datetime.max]: 0001-01-01 00:00:00 and
    9999-12-31 23:59:59.999999. *)
Definition datetime_min : Z := -62135596800000000.
Definition datetime_max : Z := 253402300799999999.

Definition representable (t : Z) : bool :=
  (datetime_min <=? t) && (t <=? datetime_max).

(** [t + delta] on a [datetime] and a [timedelta]. *)
Definition datetime_add (t delta : Z) : Result Z :=
  if representable (t + delta) then Ok (t + delta) else Raise OverflowError.

(** ** The database

    The backend is configured outside the source.  Two are modelled: SQLite,
    whose integers have 64 bits and whose driver raises [OverflowError] for a
    larger one, and PostgreSQL, whose [integer] column has 32 bits and which
    answers [DataError]. *)

Inductive Backend := sqlite | postgresql.

Definition integer_field_range (b : Backend) : Z * Z :=
  match b with
  | sqlite => (-9223372036854775808, 9223372036854775807)
  | postgresql => (-2147483648, 2147483647)
  end.

Definition range_error (b : Backend) : exn :=
  match b with
  | sqlite => OverflowError
  | postgresql => DataError
  end.

Definition in_column (b : Backend) (n : Z) : bool :=
  (fst (integer_field_range b) <=? n) && (n <=? snd (integer_field_range b)).

(** Whether the database takes the value the instance holds for column
    [f].  Of the columns the methods write, [failed_login_attempts] is the
    [IntegerField]; [locked_until] holds a [datetime] or null. *)
Definition column_accepts (b : Backend) (f : Field) (u : CustomUser) : bool :=
  match f with
  | F_failed_login_attempts => in_column b (failed_login_attempts u)
  | _ => true
  end.

(** ** The world a method runs in *)

Record World := mkWorld {
  db : Backend;                   (* the database that holds the row *)
  clock : Z;                      (* what [timezone.now()] returns *)
  self : CustomUser;              (* the in-memory instance *)
  row : CustomUser;               (* its stored row *)
  updates : list (list Field)     (* the UPDATE statements issued, oldest first *)
}.

(** The clock read [t]; nothing else differs. *)
Definition at_time (t : Z) (w : World) : World :=
  mkWorld (db w) t (self w) (row w) (updates w).

(** An instance just loaded from its row in the database [b]. *)
Definition loaded_on (b : Backend) (t : Z) (u : CustomUser) : World :=
  mkWorld b t u u [].

(** An instance just loaded from its row, in SQLite. *)
Definition loaded (t : Z) (u : CustomUser) : World := loaded_on sqlite t u.

Definition M (A : Type) : Type := World -> A * World.

Definition ret {A} (a : A) : M A := fun w => (a, w).

Definition bind {A B} (m : M A) (k : A -> M B) : M B :=
  fun w => let (a, w') := m w in k a w'.

(** What follows a call that may raise runs only if the call returned. *)
Definition bind_ok {A B} (m : M (Result A)) (k : A -> M (Result B))
  : M (Result B) :=
  fun w =>
    match m w with
    | (Ok a, w') => k a w'
    | (Raise e, w') => (Raise e, w')
    end.

Declare Scope py_scope.
Delimit Scope py_scope with py.
Notation "x <- c ;; k" := (bind c (fun x => k))
  (at level 61, c at next level, right associativity) : py_scope.
Notation "c ;; k" := (bind c (fun _ => k))
  (at level 61, right associativity) : py_scope.
Notation "x <-! c ;; k" := (bind_ok c (fun x => k))
  (at level 61, c at next level, right associativity) : py_scope.
Notation "c ;;! k" := (bind_ok c (fun _ => k))
  (at level 61, right associativity) : py_scope.
Local Open Scope py_scope.

Definition eval {A} (m : M A) (w : World) : A := fst (m w).
Definition exec {A} (m : M A) (w : World) : World := snd (m w).

(** [timezone.now()] *)
Definition timezone_now : M Z := fun w => (clock w, w).

(** [self.f] *)
Definition getattr (f : Field) : M (field_type f) :=
  fun w => (get_field f (self w), w).

(** [self.f = v] *)
Definition setattr (f : Field) (v : field_type f) : M unit :=
  fun w => (tt, mkWorld (db w) (clock w) (set_field f v (self w)) (row w)
                  (updates w)).

(** [self.save(update_fields=fs)] *)
Definition save (update_fields : list Field) : M (Result unit) :=
  fun w =>
    if forallb (fun f => column_accepts (db w) f (self w)) update_fields
    then (Ok tt,
          mkWorld (db w) (clock w) (self w)
            (fold_left (copy_field (self w)) update_fields (row w))
            (updates w ++ [update_fields]))
    else (Raise (range_error (db w)),
          mkWorld (db w) (clock w) (self w) (row w)
            (updates w ++ [update_fields])).

(** ** The methods of [CustomUser] *)

(** [return f"{self.first_name} {self.last_name}".strip()] *)
Definition get_full_name (u : CustomUser) : pystr :=
  strip (fmt_space (first_name u) (last_name u)).

(** [return self.first_name or self.username] *)
Definition get_short_name (u : CustomUser) : pystr :=
  or_ (first_name u) (username u).

(** [return self.is_active and
            (self.locked_until is None or self.locked_until < timezone.now())] *)
Definition can_login : M bool :=
  active <- getattr F_is_active ;;
  if active : bool then
    lu <- getattr F_locked_until ;;
    match lu with
    | None => ret true
    | Some l => now <- timezone_now ;; ret (l <? now)
    end
  else ret false.

(** [self.failed_login_attempts += 1; self.save(...);
     return self.failed_login_attempts] *)
Definition increment_failed_logins : M (Result Z) :=
  n <- getattr F_failed_login_attempts ;;
  setattr F_failed_login_attempts (n + 1) ;;
  save [F_failed_login_attempts] ;;!
  n' <- getattr F_failed_login_attempts ;;
  ret (Ok n').

(** [self.failed_login_attempts = 0; self.locked_until = None; self.save(...)] *)
Definition reset_failed_logins : M (Result unit) :=
  setattr F_failed_login_attempts 0 ;;
  setattr F_locked_until None ;;
  save [F_failed_login_attempts; F_locked_until].

(** [self.locked_until = timezone.now() + timedelta(minutes=duration_minutes);
     self.save(update_fields=['locked_until'])] *)
Definition lock_account (duration_minutes : number) : M (Result unit) :=
  now <- timezone_now ;;
  delta <-! ret (timedelta_minutes duration_minutes) ;;
  until <-! ret (datetime_add now delta) ;;
  setattr F_locked_until (Some until) ;;
  save [F_locked_until].

(** The default argument [duration_minutes=5]. *)
Definition lock_account_default : M (Result unit) := lock_account 5.

(** [return self.locked_until is not None and self.locked_until > timezone.now()] *)
Definition is_account_locked : M bool :=
  lu <- getattr F_locked_until ;;
  match lu with
  | None => ret false
  | Some l => now <- timezone_now ;; ret (l >? now)
  end.

(** A method called [n] times in a row, as long as it returns. *)
Fixpoint times {A} (n : nat) (m : M (Result A)) : M (Result unit) :=
  match n with
  | O => ret (Ok tt)
  | S n' => m ;;! times n' m
  end.

(** The instant [lock_account] computes for [locked_until]. *)
Definition lock_until (duration_minutes : number) (now : Z) : Result Z :=
  match timedelta_minutes duration_minutes with
  | Ok delta => datetime_add now delta
  | Raise e => Raise e
  end.

(** ** The operations as the specification words them

    Used only to compare the specification's wording with the methods. *)

Module Spec.




End Spec.

(** Concrete accounts used in the examples. *)
Definition jdoe : CustomUser :=
  new_user (lit "jdoe") (lit "jdoe@example.org") [] [] 0.

Definition john : CustomUser :=
  new_user (lit "jdoe") (lit "jdoe@example.org") (lit "John") (lit "Doe") 0.

(** The world of the examples: [jdoe], just loaded, at time [1000]. *)
Definition fresh : World := loaded 1000 jdoe.

(** A world whose in-memory instance carries an unsaved change. *)
Definition dirty : World :=
  mkWorld sqlite 1000
    (set_field F_last_login_ip (Some (lit "10.0.0.1"))
       (set_field F_locked_until (Some 5000) john))
    john [].

(** [jdoe] with the largest count its column takes, in the database [b]. *)
Definition full_counter (b : Backend) : World :=
  loaded_on b 1000
    (set_field F_failed_login_attempts (snd (integer_field_range b)) jdoe).


(** [self] replaced by [f self]. *)
Definition with_self (f : CustomUser -> CustomUser) (w : World) : World :=
  mkWorld (db w) (clock w) (f (self w)) (row w) (updates w).

(** ** Roles

    [groups] is inherited from Django's [AbstractUser]: the [Group] rows
    related to the user.  A group is known here by its [name] column, the
    only one the methods look at, and [self.groups] is the list of the names
    of the user's groups. *)

Definition pystr_eqb (a b : pystr) : bool :=
  if list_eq_dec N.eq_dec a b then true else false.

(** [qs.filter(name=role_name)] *)
Definition filter_name (role_name : pystr) (qs : list pystr) : list pystr :=
  filter (pystr_eqb role_name) qs.

(** [qs.exists()] *)
Definition exists_ (qs : list pystr) : bool :=
  match qs with [] => false | _ :: _ => true end.

(** [return self.groups.filter(name=role_name).exists()] *)
Definition has_role (groups : list pystr) (role_name : pystr) : bool :=
  exists_ (filter_name role_name groups).

(** [return self.is_superuser or self.has_role('Admin')] *)
Definition is_admin (u : CustomUser) (groups : list pystr) : bool :=
  is_superuser u || has_role groups (lit "Admin").

(** ** Sessions

    What a caller can do to one account: call one of the three methods that
    write, going on whether the call returned or raised, or let the clock
    move to [t]. *)

Inductive Call :=
| Increment
| Reset
| Lock (duration_minutes : number)
| Wait (t : Z).

Definition call (w : World) (c : Call) : World :=
  match c with
  | Increment => exec increment_failed_logins w
  | Reset => exec reset_failed_logins w
  | Lock d => exec (lock_account d) w
  | Wait t => at_time t w
  end.

Definition run_calls (cs : list Call) (w : World) : World :=
  fold_left call cs w.

(** Whether the call returns, rather than raises, in the world [w]. *)
Definition call_returns (w : World) (c : Call) : bool :=
  match c with
  | Increment => returned (eval increment_failed_logins w)
  | Reset => returned (eval reset_failed_logins w)
  | Lock d => returned (eval (lock_account d) w)
  | Wait _ => true
  end.

(** Whether every call of the session returns. *)
Fixpoint all_return (cs : list Call) (w : World) : bool :=
  match cs with
  | [] => true
  | c :: cs' => call_returns w c && all_return cs' (call w c)
  end.

(** The UPDATE a call issues when it returns, if any. *)
Definition statement (c : Call) : list (list Field) :=
  match c with
  | Increment => [[F_failed_login_attempts]]
  | Reset => [[F_failed_login_attempts; F_locked_until]]
  | Lock _ => [[F_locked_until]]
  | Wait _ => []
  end.

Definition is_increment (c : Call) : bool :=
  match c with Increment => true | _ => false end.

Definition is_reset (c : Call) : bool :=
  match c with Reset => true | _ => false end.

Definition is_lock (c : Call) : bool :=
  match c with Lock _ => true | _ => false end.

(** A locked account, with two failed logins, for the examples. *)
Definition locked_john : World :=
  loaded 1000
    (set_field F_failed_login_attempts 2
       (set_field F_locked_until (Some 9000) john)).

(** * Properties *)

(** ** Strings *)

Section Strip.

Lemma blank_app (a b : pystr) : blank (a ++ b) <-> blank a /\ blank b.
Proof. unfold blank. apply Forall_app. Qed.

Lemma blank_rev (a : pystr) : blank a -> blank (rev a).
Proof. unfold blank. apply Forall_rev. Qed.

Lemma lstrip_split (s : pystr) :
  exists l, blank l /\ s = l ++ lstrip s.
Proof.
  induction s as [|c s [l [Hl Hs]]]; simpl.
  - exists []. split; [constructor | reflexivity].
  - destruct (isspace c) eqn:Hc.
    + exists (c :: l). split; [constructor; assumption|].
      simpl. f_equal. exact Hs.
    + exists []. split; [constructor | reflexivity].
Qed.

Lemma lstrip_head (s : pystr) (c : N) (t : pystr) :
  lstrip s = c :: t -> isspace c = false.
Proof.
  induction s as [|a s IH]; simpl; [discriminate|].
  destruct (isspace a) eqn:Ha; [exact IH|].
  intros H. injection H as -> _. exact Ha.
Qed.

Lemma lstrip_blank (s : pystr) : blank s -> lstrip s = [].
Proof.
  induction 1 as [|c s Hc _ IH]; simpl; [reflexivity|].
  rewrite Hc. exact IH.
Qed.

Lemma lstrip_nil_blank (s : pystr) : lstrip s = [] -> blank s.
Proof.
  intros H. destruct (lstrip_split s) as [l [Hl Hs]].
  rewrite H, app_nil_r in Hs. subst s. exact Hl.
Qed.

Lemma rstrip_split (s : pystr) :
  exists r, blank r /\ s = rstrip s ++ r.
Proof.
  unfold rstrip. destruct (lstrip_split (rev s)) as [l [Hl Hs]].
  exists (rev l). split; [apply blank_rev; exact Hl|].
  rewrite <- rev_app_distr, <- Hs, rev_involutive. reflexivity.
Qed.

Lemma rstrip_last (s : pystr) (c : N) (t : pystr) :
  rstrip s = t ++ [c] -> isspace c = false.
Proof.
  unfold rstrip. intros H.
  apply (f_equal (@rev N)) in H.
  rewrite rev_involutive, rev_app_distr in H. simpl in H.
  exact (lstrip_head _ _ _ H).
Qed.

Lemma strip_split (s : pystr) :
  exists l r, blank l /\ blank r /\ s = l ++ strip s ++ r.
Proof.
  unfold strip.
  destruct (lstrip_split s) as [l [Hl Hs]].
  destruct (rstrip_split (lstrip s)) as [r [Hr Hm]].
  exists l, r. repeat split; try assumption.
  rewrite <- Hm. exact Hs.
Qed.

Lemma strip_trimmed (s : pystr) : trimmed (strip s).
Proof.
  unfold strip. split.
  - intros c t H.
    destruct (rstrip_split (lstrip s)) as [r [_ Hm]].
    rewrite H in Hm. simpl in Hm.
    exact (lstrip_head _ _ _ Hm).
  - intros c t H. exact (rstrip_last _ _ _ H).
Qed.

Lemma strip_nil_iff (s : pystr) : strip s = [] <-> blank s.
Proof.
  split.
  - intros H. destruct (strip_split s) as [l [r [Hl [Hr Hs]]]].
    rewrite H in Hs. simpl in Hs. subst s.
    apply blank_app. split; assumption.
  - intros H. unfold strip. rewrite (lstrip_blank _ H). reflexivity.
Qed.

Lemma fmt_space_blank (a b : pystr) :
  blank (fmt_space a b) <-> blank a /\ blank b.
Proof.
  unfold fmt_space. rewrite blank_app. split.
  - intros [Ha Hb]. split; [exact Ha|]. inversion Hb; assumption.
  - intros [Ha Hb]. split; [exact Ha|]. constructor; [reflexivity | exact Hb].
Qed.

End Strip.

(** ** Columns *)

Lemma get_set_same (f : Field) (v : field_type f) (u : CustomUser) :
  get_field f (set_field f v u) = v.
Proof. destruct f; reflexivity. Qed.

Lemma get_set_other (f g : Field) (v : field_type g) (u : CustomUser) :
  f <> g -> get_field f (set_field g v u) = get_field f u.
Proof. intros Hfg. destruct f, g; try reflexivity; contradiction. Qed.

Lemma set_get_id (f : Field) (u : CustomUser) :
  set_field f (get_field f u) u = u.
Proof. destruct u, f; reflexivity. Qed.

(** ** Running the methods *)

Ltac run :=
  unfold eval, exec, can_login, is_account_locked, increment_failed_logins,
    reset_failed_logins, lock_account, lock_account_default, save, setattr,
    getattr, timezone_now, bind, bind_ok, ret, copy_field, at_time,
    with_self, loaded, loaded_on;
  cbn [fst snd fold_left forallb column_accepts get_field set_field db clock
       self row updates is_active locked_until failed_login_attempts].

Lemma can_login_eq (w : World) :
  eval can_login w =
  is_active (self w) &&
  match locked_until (self w) with
  | None => true
  | Some l => l <? clock w
  end.
Proof.
  run. destruct (is_active (self w)); [|reflexivity].
  destruct (locked_until (self w)); reflexivity.
Qed.

Lemma is_account_locked_eq (w : World) :
  eval is_account_locked w =
  match locked_until (self w) with
  | None => false
  | Some l => l >? clock w
  end.
Proof. run. destruct (locked_until (self w)); reflexivity. Qed.

Lemma can_login_pure (w : World) : exec can_login w = w.
Proof.
  run. destruct (is_active (self w)); [|reflexivity].
  destruct (locked_until (self w)); reflexivity.
Qed.

Lemma is_account_locked_pure (w : World) : exec is_account_locked w = w.
Proof. run. destruct (locked_until (self w)); reflexivity. Qed.

Lemma in_column_zero (b : Backend) : in_column b 0 = true.
Proof. destruct b; reflexivity. Qed.

Lemma in_column_iff (b : Backend) (n : Z) :
  in_column b n = true <->
  fst (integer_field_range b) <= n <= snd (integer_field_range b).
Proof. unfold in_column. rewrite andb_true_iff, !Z.leb_le. reflexivity. Qed.

Lemma reset_failed_logins_exec (w : World) :
  exec reset_failed_logins w =
  mkWorld (db w) (clock w)
    (set_field F_locked_until None
       (set_field F_failed_login_attempts 0 (self w)))
    (set_field F_locked_until None
       (set_field F_failed_login_attempts 0 (row w)))
    (updates w ++ [[F_failed_login_attempts; F_locked_until]]).
Proof.
  run. rewrite in_column_zero. reflexivity.
Qed.

Lemma reset_failed_logins_eval (w : World) :
  eval reset_failed_logins w = Ok tt.
Proof.
  run. rewrite in_column_zero. reflexivity.
Qed.

Lemma increment_failed_logins_exec (w : World) :
  exec increment_failed_logins w =
  mkWorld (db w) (clock w)
    (set_field F_failed_login_attempts (failed_login_attempts (self w) + 1)
       (self w))
    (if in_column (db w) (failed_login_attempts (self w) + 1)
     then set_field F_failed_login_attempts
            (failed_login_attempts (self w) + 1) (row w)
     else row w)
    (updates w ++ [[F_failed_login_attempts]]).
Proof.
  run. rewrite andb_true_r.
  destruct (in_column (db w) (failed_login_attempts (self w) + 1));
    reflexivity.
Qed.

Lemma increment_failed_logins_eval (w : World) :
  eval increment_failed_logins w =
  if in_column (db w) (failed_login_attempts (self w) + 1)
  then Ok (failed_login_attempts (self w) + 1)
  else Raise (range_error (db w)).
Proof.
  run. rewrite andb_true_r.
  destruct (in_column (db w) (failed_login_attempts (self w) + 1));
    reflexivity.
Qed.

Lemma lock_account_exec (d : number) (w : World) :
  exec (lock_account d) w =
  match lock_until d (clock w) with
  | Ok u =>
      mkWorld (db w) (clock w)
        (set_field F_locked_until (Some u) (self w))
        (set_field F_locked_until (Some u) (row w))
        (updates w ++ [[F_locked_until]])
  | Raise _ => w
  end.
Proof.
  run. unfold lock_until.
  destruct (timedelta_minutes d) as [delta|e]; [|reflexivity].
  destruct (datetime_add (clock w) delta); reflexivity.
Qed.

Lemma lock_account_eval (d : number) (w : World) :
  eval (lock_account d) w =
  match lock_until d (clock w) with
  | Ok _ => Ok tt
  | Raise e => Raise e
  end.
Proof.
  run. unfold lock_until.
  destruct (timedelta_minutes d) as [delta|e]; [|reflexivity].
  destruct (datetime_add (clock w) delta); reflexivity.
Qed.

Lemma representable_iff (t : Z) :
  representable t = true <-> datetime_min <= t <= datetime_max.
Proof. unfold representable. rewrite andb_true_iff, !Z.leb_le. reflexivity. Qed.

Lemma timedelta_minutes_Int (n : Z) :
  - (datetime_max - datetime_min) <= n * 60000000
    <= datetime_max - datetime_min ->
  timedelta_minutes (Int n) = Ok (n * 60000000).
Proof.
  unfold timedelta_minutes, minutes_to_us, us_per_minute, datetime_max,
    datetime_min.
  intros [Hlo Hhi].
  assert (H1 : -999999999 <= n * 60000000 / 86400000000)
    by (apply Z.div_le_lower_bound; lia).
  assert (H2 : n * 60000000 / 86400000000 < 1000000000)
    by (apply Z.div_lt_upper_bound; lia).
  apply Z.leb_le in H1.
  assert (H3 : (n * 60000000 / 86400000000 <=? 999999999) = true)
    by (apply Z.leb_le; lia).
  rewrite H1, H3. reflexivity.
Qed.

(** A whole number of minutes from a representable instant to a
    representable one: the instant [lock_account] computes. *)
Lemma lock_until_Int (n t : Z) :
  representable t = true ->
  representable (t + n * 60000000) = true ->
  lock_until (Int n) t = Ok (t + n * 60000000).
Proof.
  intros Ht Hr. unfold lock_until.
  rewrite timedelta_minutes_Int.
  - unfold datetime_add. rewrite Hr. reflexivity.
  - apply representable_iff in Ht. apply representable_iff in Hr. lia.
Qed.

Lemma exec_bind_ok {A B} (m : M (Result A)) (k : A -> M (Result B))
  (w : World) :
  exec (bind_ok m k) w =
  match eval m w with
  | Ok a => exec (k a) (exec m w)
  | Raise _ => exec m w
  end.
Proof. unfold exec, eval, bind_ok. destruct (m w) as [[a|e] w']; reflexivity. Qed.

Lemma eval_bind_ok {A B} (m : M (Result A)) (k : A -> M (Result B))
  (w : World) :
  eval (bind_ok m k) w =
  match eval m w with
  | Ok a => eval (k a) (exec m w)
  | Raise e => Raise e
  end.
Proof. unfold exec, eval, bind_ok. destruct (m w) as [[a|e] w']; reflexivity. Qed.

(** ** The login gate and the lock query *)

(** C1. [can_login] answers true exactly when the account is active and
    [locked_until] is null or strictly before the current time; it changes
    nothing; and an inactive account can never log in, whatever its
    failed-login count and lock timestamp are. *)
Theorem can_login_iff (w : World) (n : Z) (lu : option Z) :
  (eval can_login w = true <->
   is_active (self w) = true /\
   (locked_until (self w) = None \/
    exists l, locked_until (self w) = Some l /\ l < clock w)) /\
  exec can_login w = w /\
  eval can_login
    (with_self (fun u => set_field F_failed_login_attempts n
                           (set_field F_locked_until lu
                              (set_field F_is_active false u))) w) = false.
Proof.
  split; [|split].
  - rewrite can_login_eq, andb_true_iff. split.
    + intros [Ha Hl]. split; [exact Ha|].
      destruct (locked_until (self w)) as [l|]; [right | left; reflexivity].
      exists l. split; [reflexivity | apply Z.ltb_lt; exact Hl].
    + intros [Ha [Hn | [l [Hl Hlt]]]]; (split; [exact Ha|]); rewrite ?Hn, ?Hl.
      * reflexivity.
      * apply Z.ltb_lt. exact Hlt.
  - apply can_login_pure.
  - rewrite can_login_eq. reflexivity.
Qed.

(** C8. [is_account_locked] answers true exactly when [locked_until] is set
    and strictly after the current time; it changes nothing and does not
    look at [is_active]: a deactivated account whose [locked_until] lies in
    the future is reported locked. *)
Theorem is_account_locked_iff (w : World) (b : bool) (p : positive) :
  (eval is_account_locked w = true <->
   exists l, locked_until (self w) = Some l /\ l > clock w) /\
  exec is_account_locked w = w /\
  eval is_account_locked (with_self (set_field F_is_active b) w) =
    eval is_account_locked w /\
  eval is_account_locked
    (with_self (fun u => set_field F_locked_until (Some (clock w + Z.pos p))
                           (set_field F_is_active false u)) w) = true.
Proof.
  split; [|split; [|split]].
  - rewrite is_account_locked_eq. split.
    + destruct (locked_until (self w)) as [l|]; [|discriminate].
      intros H. exists l. split; [reflexivity|].
      apply Z.gtb_lt in H. lia.
    + intros [l [Hl Hgt]]. rewrite Hl. apply Z.gtb_lt. lia.
  - apply is_account_locked_pure.
  - rewrite !is_account_locked_eq. reflexivity.
  - rewrite is_account_locked_eq. run. apply Z.gtb_lt. lia.
Qed.

(** C10. At the instant where the clock reads exactly [locked_until], an
    active account is neither allowed to log in nor reported locked. *)
Theorem boundary_instant (w : World) :
  is_active (self w) = true ->
  locked_until (self w) = Some (clock w) ->
  eval can_login w = false /\ eval is_account_locked w = false.
Proof.
  intros Ha Hl. rewrite can_login_eq, is_account_locked_eq, Ha, Hl.
  split.
  - simpl. apply Z.ltb_irrefl.
  - rewrite Z.gtb_ltb. apply Z.ltb_irrefl.
Qed.

Lemma boundary_instant_witness :
  eval can_login (loaded 1000 (set_field F_locked_until (Some 1000) jdoe))
    = false /\
  eval is_account_locked
    (loaded 1000 (set_field F_locked_until (Some 1000) jdoe)) = false.
Proof.
  apply (boundary_instant
           (loaded 1000 (set_field F_locked_until (Some 1000) jdoe)));
    reflexivity.
Defined.

(** ** Locking *)










(** ** The failed-login counter *)

(** C4. Whatever the count and the lock were, after [reset_failed_logins]
    the count is 0 and [locked_until] is null, in memory and in the stored
    row, and both columns went out together in one UPDATE, the only one the
    call issued. *)
Theorem reset_failed_logins_clears (w : World) :
  failed_login_attempts (self (exec reset_failed_logins w)) = 0 /\
  locked_until (self (exec reset_failed_logins w)) = None /\
  failed_login_attempts (row (exec reset_failed_logins w)) = 0 /\
  locked_until (row (exec reset_failed_logins w)) = None /\
  updates (exec reset_failed_logins w) =
    updates w ++ [[F_failed_login_attempts; F_locked_until]].
Proof. rewrite reset_failed_logins_exec. repeat split. Qed.

Lemma integer_field_range_lower (b : Backend) :
  fst (integer_field_range b) <= 0.
Proof. destruct b; cbn; lia. Qed.

Lemma times_increment (n : nat) (w : World) :
  fst (integer_field_range (db w)) - 1 <= failed_login_attempts (self w) ->
  failed_login_attempts (self w) + Z.of_nat n
    <= snd (integer_field_range (db w)) ->
  eval (times n increment_failed_logins) w = Ok tt /\
  failed_login_attempts (self (exec (times n increment_failed_logins) w))
    = failed_login_attempts (self w) + Z.of_nat n /\
  failed_login_attempts (row (exec (times n increment_failed_logins) w))
    = match n with
      | O => failed_login_attempts (row w)
      | S _ => failed_login_attempts (self w) + Z.of_nat n
      end.
Proof.
  revert w. induction n as [|n IH]; intros w Hlo Hhi.
  - unfold eval, exec, times, ret. cbn [fst snd]. repeat split. lia.
  - cbn [times]. rewrite eval_bind_ok, exec_bind_ok.
    assert (Hin : in_column (db w) (failed_login_attempts (self w) + 1)
                  = true) by (apply in_column_iff; lia).
    rewrite increment_failed_logins_eval, Hin.
    destruct (IH (exec increment_failed_logins w)) as [He [Hs Hr]].
    + rewrite increment_failed_logins_exec.
      cbn [db self set_field failed_login_attempts]. lia.
    + rewrite increment_failed_logins_exec.
      cbn [db self set_field failed_login_attempts]. lia.
    + split; [exact He|]. rewrite Hs, Hr.
      rewrite increment_failed_logins_exec, Hin.
      cbn [self row set_field failed_login_attempts].
      split; [lia|]. destruct n; lia.
Qed.

(** C6, as stated, fails.  With the count at the largest value of the
    integer column, [increment_failed_logins] adds 1 in memory, the UPDATE is
    refused, the call raises and returns no count, and the stored row keeps
    the old count: in PostgreSQL at [2^31 - 1], in SQLite at [2^63 - 1]. *)
Lemma increment_at_column_maximum :
  failed_login_attempts (self (full_counter postgresql)) = 2147483647 /\
  eval increment_failed_logins (full_counter postgresql) = Raise DataError /\
  failed_login_attempts
    (self (exec increment_failed_logins (full_counter postgresql)))
    = 2147483648 /\
  failed_login_attempts
    (row (exec increment_failed_logins (full_counter postgresql)))
    = 2147483647 /\
  eval increment_failed_logins (full_counter sqlite) = Raise OverflowError /\
  failed_login_attempts
    (row (exec increment_failed_logins (full_counter sqlite)))
    = 9223372036854775807.
Proof. vm_compute. repeat split. Qed.

(** C6, amended.  When the count plus 1 fits the integer column,
    [increment_failed_logins] adds exactly 1 to the count, in memory and in
    the stored row, and returns the new count.  Starting from a count of 0,
    [n] calls, with [n] no larger than the column's maximum, all return and
    leave the count at [n], in memory and, once a call was made, in the
    stored row. *)
Theorem increment_failed_logins_counts (w : World) (n : nat) :
  fst (integer_field_range (db w)) <= failed_login_attempts (self w) + 1
    <= snd (integer_field_range (db w)) ->
  Z.of_nat n <= snd (integer_field_range (db w)) ->
  eval increment_failed_logins w = Ok (failed_login_attempts (self w) + 1) /\
  failed_login_attempts (self (exec increment_failed_logins w))
    = failed_login_attempts (self w) + 1 /\
  failed_login_attempts (row (exec increment_failed_logins w))
    = failed_login_attempts (self w) + 1 /\
  eval (times n increment_failed_logins)
    (with_self (set_field F_failed_login_attempts 0) w) = Ok tt /\
  failed_login_attempts
    (self (exec (times n increment_failed_logins)
             (with_self (set_field F_failed_login_attempts 0) w)))
    = Z.of_nat n /\
  failed_login_attempts
    (row (exec (times n increment_failed_logins)
            (with_self (set_field F_failed_login_attempts 0) w)))
    = match n with
      | O => failed_login_attempts (row w)
      | S _ => Z.of_nat n
      end.
Proof.
  intros Hfit Hn. apply in_column_iff in Hfit.
  split; [rewrite increment_failed_logins_eval, Hfit; reflexivity|].
  split; [rewrite increment_failed_logins_exec; reflexivity|].
  split; [rewrite increment_failed_logins_exec, Hfit; reflexivity|].
  destruct (times_increment n
              (with_self (set_field F_failed_login_attempts 0) w))
    as [He [Hs Hr]].
  - cbn [with_self db self set_field failed_login_attempts].
    pose proof (integer_field_range_lower (db w)). lia.
  - cbn [with_self db self set_field failed_login_attempts]. lia.
  - split; [exact He|]. rewrite Hs, Hr.
    cbn [with_self self row set_field failed_login_attempts].
    split; [lia|]. destruct n; [reflexivity | lia].
Qed.

Lemma increment_failed_logins_counts_witness :
  fst (integer_field_range (db locked_john))
    <= failed_login_attempts (self locked_john) + 1
    <= snd (integer_field_range (db locked_john)) /\
  Z.of_nat 3 <= snd (integer_field_range (db locked_john)) /\
  eval increment_failed_logins locked_john = Ok 3 /\
  failed_login_attempts
    (row (exec (times 3 increment_failed_logins)
            (with_self (set_field F_failed_login_attempts 0) locked_john)))
    = 3.
Proof.
  split; [vm_compute; split; discriminate|].
  split; [vm_compute; discriminate|].
  destruct (increment_failed_logins_counts locked_john 3)
    as [H1 [_ [_ [_ [_ H6]]]]];
    [vm_compute; split; discriminate | vm_compute; discriminate |].
  split; [exact H1 | exact H6].
Defined.

(** C9. [increment_failed_logins] touches the count only: every other
    field of the instance and every other column of the stored row keeps its
    value, [locked_until] and [is_active] among them, so the lock status is
    the same at every time; the one UPDATE it issues names the count column
    alone. *)
Theorem increment_failed_logins_frame (w : World) (f : Field) :
  f <> F_failed_login_attempts ->
  get_field f (self (exec increment_failed_logins w)) = get_field f (self w) /\
  get_field f (row (exec increment_failed_logins w)) = get_field f (row w) /\
  locked_until (self (exec increment_failed_logins w))
    = locked_until (self w) /\
  is_active (self (exec increment_failed_logins w)) = is_active (self w) /\
  (forall t, eval is_account_locked (at_time t (exec increment_failed_logins w))
             = eval is_account_locked (at_time t w)) /\
  updates (exec increment_failed_logins w) =
    updates w ++ [[F_failed_login_attempts]].
Proof.
  intros Hf. rewrite increment_failed_logins_exec. cbn [self row updates].
  split; [apply get_set_other; exact Hf|].
  split.
  { destruct (in_column (db w) (failed_login_attempts (self w) + 1));
      [apply get_set_other; exact Hf | reflexivity]. }
  split; [reflexivity|]. split; [reflexivity|]. split; [|reflexivity].
  intros t. rewrite !is_account_locked_eq. reflexivity.
Qed.

Lemma increment_failed_logins_frame_witness :
  F_last_login_ip <> F_failed_login_attempts /\
  last_login_ip (self (exec increment_failed_logins dirty))
    = Some (lit "10.0.0.1") /\
  last_login_ip (row (exec increment_failed_logins dirty)) = None.
Proof.
  split; [discriminate|].
  destruct (increment_failed_logins_frame dirty F_last_login_ip)
    as [Hs [Hr _]]; [discriminate|].
  split; [exact Hs | exact Hr].
Defined.

(** ** The name helpers *)


(** * Further properties of the methods *)

(** ** The two queries together *)

(** X1. Away from the instant where the clock reads exactly [locked_until],
    the two queries of an active account are complementary: it can log in
    exactly when it is not locked. *)
Theorem can_login_not_locked (w : World) :
  is_active (self w) = true ->
  locked_until (self w) <> Some (clock w) ->
  eval can_login w = negb (eval is_account_locked w).
Proof.
  intros Ha Hb. rewrite can_login_eq, is_account_locked_eq, Ha.
  destruct (locked_until (self w)) as [l|]; [|reflexivity].
  cbn [andb]. rewrite Z.gtb_ltb.
  assert (l <> clock w) by congruence.
  destruct (l <? clock w) eqn:E1, (clock w <? l) eqn:E2; try reflexivity;
    rewrite ?Z.ltb_lt, ?Z.ltb_ge in *; lia.
Qed.

Lemma can_login_not_locked_witness :
  is_active (self locked_john) = true /\
  locked_until (self locked_john) <> Some (clock locked_john) /\
  eval can_login locked_john = negb (eval is_account_locked locked_john).
Proof.
  split; [reflexivity|]. split; [discriminate|].
  apply (can_login_not_locked locked_john); [reflexivity | discriminate].
Defined.

(** X2. No account is both locked and allowed to log in, active or not. *)
Theorem locked_cannot_login (w : World) :
  eval is_account_locked w = true -> eval can_login w = false.
Proof.
  rewrite can_login_eq, is_account_locked_eq.
  destruct (locked_until (self w)) as [l|]; [|discriminate].
  intros H. apply Z.gtb_lt in H.
  destruct (is_active (self w)); [|reflexivity].
  apply Z.ltb_ge. lia.
Qed.

Lemma locked_cannot_login_witness :
  eval is_account_locked locked_john = true /\
  eval can_login locked_john = false.
Proof.
  split; [reflexivity|].
  apply (locked_cannot_login locked_john). reflexivity.
Defined.

(** X3. Time alone only opens the gate: an account that can log in at time
    [t] can log in, and is not locked, at every later time, as long as no
    method is called in between. *)
Theorem can_login_stays (w : World) (t t' : Z) :
  t <= t' ->
  eval can_login (at_time t w) = true ->
  eval can_login (at_time t' w) = true /\
  eval is_account_locked (at_time t' w) = false.
Proof.
  intros Ht. rewrite !can_login_eq, is_account_locked_eq.
  cbn [at_time self clock].
  destruct (is_active (self w)); [|discriminate].
  destruct (locked_until (self w)) as [l|]; [|split; reflexivity].
  cbn [andb]. intros H. apply Z.ltb_lt in H. split.
  - apply Z.ltb_lt. lia.
  - rewrite Z.gtb_ltb. apply Z.ltb_ge. lia.
Qed.

Lemma can_login_stays_witness :
  9001 <= 20000 /\
  eval can_login (at_time 9001 locked_john) = true /\
  eval can_login (at_time 20000 locked_john) = true /\
  eval is_account_locked (at_time 20000 locked_john) = false.
Proof.
  split; [lia|]. split; [reflexivity|].
  apply (can_login_stays locked_john 9001 20000); [lia | reflexivity].
Defined.

(** X4. The two queries read [is_active] and [locked_until] only: giving
    any other column any value changes neither answer.  In particular no
    number of recorded failed logins closes the gate. *)
Theorem queries_read_two_columns
  (w : World) (f : Field) (v : field_type f) :
  f <> F_is_active ->
  f <> F_locked_until ->
  eval can_login (with_self (set_field f v) w) = eval can_login w /\
  eval is_account_locked (with_self (set_field f v) w)
    = eval is_account_locked w.
Proof.
  intros H1 H2. rewrite !can_login_eq, !is_account_locked_eq.
  cbn [with_self self clock].
  assert (Ha : is_active (set_field f v (self w)) = is_active (self w))
    by exact (get_set_other F_is_active f v (self w) (not_eq_sym H1)).
  assert (Hl : locked_until (set_field f v (self w)) = locked_until (self w))
    by exact (get_set_other F_locked_until f v (self w) (not_eq_sym H2)).
  rewrite Ha, Hl. split; reflexivity.
Qed.

Lemma queries_read_two_columns_witness :
  F_failed_login_attempts <> F_is_active /\
  F_failed_login_attempts <> F_locked_until /\
  eval can_login (with_self (set_field F_failed_login_attempts 1000000) fresh)
    = eval can_login fresh.
Proof.
  split; [discriminate|]. split; [discriminate|].
  apply (queries_read_two_columns fresh F_failed_login_attempts 1000000);
    discriminate.
Defined.

(** ** What the writing methods leave alone and undo *)

(** X5. [reset_failed_logins] unlocks: after it an active account can log
    in and is not locked at every time, however far in the future its lock
    reached. *)
Theorem reset_failed_logins_unlocks (w : World) (t : Z) :
  is_active (self w) = true ->
  eval can_login (at_time t (exec reset_failed_logins w)) = true /\
  eval is_account_locked (at_time t (exec reset_failed_logins w)) = false.
Proof.
  intros Ha. rewrite can_login_eq, is_account_locked_eq,
    reset_failed_logins_exec.
  cbn [at_time self clock set_field locked_until is_active].
  rewrite Ha. split; reflexivity.
Qed.

Lemma reset_failed_logins_unlocks_witness :
  is_active (self locked_john) = true /\
  eval can_login locked_john = false /\
  eval can_login (at_time 1000 (exec reset_failed_logins locked_john)) = true.
Proof.
  split; [reflexivity|]. split; [reflexivity|].
  apply (reset_failed_logins_unlocks locked_john 1000). reflexivity.
Defined.

(** X6. [reset_failed_logins] is idempotent on the data: a second call in
    a row leaves the instance and the stored row as the first did, yet it
    issues its UPDATE again. *)
Theorem reset_failed_logins_twice (w : World) :
  self (exec reset_failed_logins (exec reset_failed_logins w))
    = self (exec reset_failed_logins w) /\
  row (exec reset_failed_logins (exec reset_failed_logins w))
    = row (exec reset_failed_logins w) /\
  updates (exec reset_failed_logins (exec reset_failed_logins w))
    = updates w ++ [[F_failed_login_attempts; F_locked_until];
                    [F_failed_login_attempts; F_locked_until]].
Proof.
  rewrite !reset_failed_logins_exec. cbn [self row updates clock].
  split; [reflexivity|]. split; [reflexivity|].
  rewrite <- app_assoc. reflexivity.
Qed.

(** X7. [lock_account] touches [locked_until] only: every other field of
    the instance and column of the stored row keeps its value.  The failure
    count in particular survives the lock. *)
Theorem lock_account_frame (w : World) (d : number) (f : Field) :
  f <> F_locked_until ->
  get_field f (self (exec (lock_account d) w)) = get_field f (self w) /\
  get_field f (row (exec (lock_account d) w)) = get_field f (row w) /\
  failed_login_attempts (self (exec (lock_account d) w))
    = failed_login_attempts (self w).
Proof.
  intros Hf. rewrite lock_account_exec.
  destruct (lock_until d (clock w)); [|repeat split]. cbn [self row].
  split; [apply get_set_other; exact Hf|].
  split; [apply get_set_other; exact Hf|]. reflexivity.
Qed.

Lemma lock_account_frame_witness :
  F_failed_login_attempts <> F_locked_until /\
  failed_login_attempts (self (exec (lock_account 5) locked_john)) = 2.
Proof.
  split; [discriminate|].
  destruct (lock_account_frame locked_john 5 F_failed_login_attempts)
    as [H _]; [discriminate|]. exact H.
Defined.

(** X8. [reset_failed_logins] touches the failure count and [locked_until]
    only: every other field of the instance and column of the stored row
    keeps its value. *)
Theorem reset_failed_logins_frame (w : World) (f : Field) :
  f <> F_failed_login_attempts ->
  f <> F_locked_until ->
  get_field f (self (exec reset_failed_logins w)) = get_field f (self w) /\
  get_field f (row (exec reset_failed_logins w)) = get_field f (row w).
Proof.
  intros H1 H2. rewrite reset_failed_logins_exec. cbn [self row].
  rewrite !(get_set_other f F_locked_until) by exact H2.
  rewrite !(get_set_other f F_failed_login_attempts) by exact H1.
  split; reflexivity.
Qed.

Lemma reset_failed_logins_frame_witness :
  F_last_login_ip <> F_failed_login_attempts /\
  F_last_login_ip <> F_locked_until /\
  last_login_ip (self (exec reset_failed_logins dirty))
    = Some (lit "10.0.0.1") /\
  last_login_ip (row (exec reset_failed_logins dirty)) = None.
Proof.
  split; [discriminate|]. split; [discriminate|].
  apply (reset_failed_logins_frame dirty F_last_login_ip); discriminate.
Defined.

(** ** Sessions of calls *)

Lemma run_calls_app (cs cs' : list Call) (w : World) :
  run_calls (cs ++ cs') w = run_calls cs' (run_calls cs w).
Proof. unfold run_calls. apply fold_left_app. Qed.

Lemma run_calls_cons (c : Call) (cs : list Call) (w : World) :
  run_calls (c :: cs) w = run_calls cs (call w c).
Proof. reflexivity. Qed.

Lemma call_frame (w : World) (c : Call) (f : Field) :
  f <> F_failed_login_attempts ->
  f <> F_locked_until ->
  get_field f (self (call w c)) = get_field f (self w) /\
  get_field f (row (call w c)) = get_field f (row w).
Proof.
  intros H1 H2. destruct c; cbn [call].
  - rewrite increment_failed_logins_exec. cbn [self row].
    destruct (in_column (db w) (failed_login_attempts (self w) + 1));
      rewrite !(get_set_other f F_failed_login_attempts) by exact H1;
      split; reflexivity.
  - rewrite reset_failed_logins_exec. cbn [self row].
    rewrite !(get_set_other f F_locked_until) by exact H2.
    rewrite !(get_set_other f F_failed_login_attempts) by exact H1.
    split; reflexivity.
  - rewrite lock_account_exec.
    destruct (lock_until duration_minutes (clock w)); [|split; reflexivity].
    cbn [self row].
    rewrite !(get_set_other f F_locked_until) by exact H2.
    split; reflexivity.
  - split; reflexivity.
Qed.

Lemma call_db (w : World) (c : Call) : db (call w c) = db w.
Proof.
  destruct c; cbn [call].
  - rewrite increment_failed_logins_exec. reflexivity.
  - rewrite reset_failed_logins_exec. reflexivity.
  - rewrite lock_account_exec.
    destruct (lock_until duration_minutes (clock w)); reflexivity.
  - reflexivity.
Qed.

Lemma run_calls_frame (cs : list Call) (w : World) (f : Field) :
  f <> F_failed_login_attempts ->
  f <> F_locked_until ->
  get_field f (self (run_calls cs w)) = get_field f (self w) /\
  get_field f (row (run_calls cs w)) = get_field f (row w).
Proof.
  intros H1 H2. revert w.
  induction cs as [|c cs IH]; intros w; [split; reflexivity|].
  rewrite run_calls_cons.
  destruct (IH (call w c)) as [Hs Hr].
  destruct (call_frame w c f H1 H2) as [Hs' Hr'].
  split; congruence.
Qed.

Lemma run_calls_no_reset (cs : list Call) (w : World) :
  forallb (fun c => negb (is_reset c)) cs = true ->
  failed_login_attempts (self (run_calls cs w)) =
  failed_login_attempts (self w)
  + Z.of_nat (List.length (filter is_increment cs)).
Proof.
  revert w. induction cs as [|c cs IH]; intros w H.
  - cbn. lia.
  - cbn [forallb] in H. apply andb_true_iff in H. destruct H as [Hc Hcs].
    rewrite run_calls_cons, (IH _ Hcs).
    destruct c; cbn [call filter is_increment]; try discriminate.
    + rewrite increment_failed_logins_exec.
      cbn [self set_field failed_login_attempts List.length]. lia.
    + rewrite lock_account_exec.
      destruct (lock_until duration_minutes (clock w));
        cbn [self set_field failed_login_attempts]; lia.
    + cbn [at_time self]. lia.
Qed.

(** X9. Whatever calls are made and however the clock moves, only the
    failure count and [locked_until] ever change: every other field of the
    instance and column of the stored row is as it was at the start. *)
Theorem session_frame (cs : list Call) (w : World) (f : Field) :
  f <> F_failed_login_attempts ->
  f <> F_locked_until ->
  get_field f (self (run_calls cs w)) = get_field f (self w) /\
  get_field f (row (run_calls cs w)) = get_field f (row w).
Proof. apply run_calls_frame. Qed.

Lemma session_frame_witness :
  F_is_active <> F_failed_login_attempts /\
  F_is_active <> F_locked_until /\
  is_active
    (self (run_calls [Increment; Lock 5; Wait 400000000; Reset] fresh))
    = true.
Proof.
  split; [discriminate|]. split; [discriminate|].
  destruct (session_frame [Increment; Lock 5; Wait 400000000; Reset]
              fresh F_is_active) as [H _]; [discriminate | discriminate |].
  exact H.
Defined.

(** X10. A deactivated account stays shut: no sequence of failed logins,
    resets, locks and waiting makes [can_login] true for it. *)
Theorem inactive_never_logs_in (cs : list Call) (w : World) :
  is_active (self w) = false ->
  eval can_login (run_calls cs w) = false.
Proof.
  intros Ha. rewrite can_login_eq.
  destruct (run_calls_frame cs w F_is_active) as [H _];
    [discriminate | discriminate |].
  cbn [get_field] in H. rewrite H, Ha. reflexivity.
Qed.

Lemma inactive_never_logs_in_witness :
  is_active (self (with_self (set_field F_is_active false) fresh)) = false /\
  eval can_login
    (run_calls [Lock 5; Reset; Wait 5000]
       (with_self (set_field F_is_active false) fresh)) = false.
Proof.
  split; [reflexivity|].
  apply (inactive_never_logs_in [Lock 5; Reset; Wait 5000]
           (with_self (set_field F_is_active false) fresh)).
  reflexivity.
Defined.

(** X11. The failure count never goes below zero: if it is non-negative in
    the instance and in the stored row, it is so after every sequence of
    calls. *)
Theorem count_never_negative (cs : list Call) (w : World) :
  0 <= failed_login_attempts (self w) ->
  0 <= failed_login_attempts (row w) ->
  0 <= failed_login_attempts (self (run_calls cs w)) /\
  0 <= failed_login_attempts (row (run_calls cs w)).
Proof.
  revert w. induction cs as [|c cs IH]; intros w Hs Hr; [split; assumption|].
  rewrite run_calls_cons. apply IH; destruct c; cbn [call].
  all: rewrite ?increment_failed_logins_exec, ?reset_failed_logins_exec,
         ?lock_account_exec;
       try destruct (lock_until duration_minutes (clock w));
       try destruct (in_column (db w) (failed_login_attempts (self w) + 1));
       cbn [at_time self row set_field failed_login_attempts]; lia.
Qed.

Lemma count_never_negative_witness :
  0 <= failed_login_attempts (self locked_john) /\
  0 <= failed_login_attempts (row locked_john) /\
  0 <= failed_login_attempts
         (self (run_calls [Increment; Reset; Increment] locked_john)).
Proof.
  split; [simpl; lia|]. split; [simpl; lia|].
  destruct (count_never_negative [Increment; Reset; Increment] locked_john)
    as [H _]; [simpl; lia | simpl; lia |]. exact H.
Defined.

(** X12. The methods leave nothing unsaved when they return: if the
    instance equals its stored row and every call of a session returns, the
    instance still equals the row at the end. *)
Theorem session_keeps_saved (cs : list Call) (w : World) :
  self w = row w ->
  all_return cs w = true ->
  self (run_calls cs w) = row (run_calls cs w).
Proof.
  revert w. induction cs as [|c cs IH]; intros w H Hr; [exact H|].
  cbn [all_return] in Hr. apply andb_true_iff in Hr.
  destruct Hr as [Hc Hcs].
  rewrite run_calls_cons. apply IH; [|exact Hcs].
  destruct c; cbn [call call_returns] in *.
  - rewrite increment_failed_logins_eval in Hc.
    rewrite increment_failed_logins_exec. cbn [self row].
    destruct (in_column (db w) (failed_login_attempts (self w) + 1));
      [|discriminate]. rewrite H. reflexivity.
  - rewrite reset_failed_logins_exec. cbn [self row]. rewrite H.
    reflexivity.
  - rewrite lock_account_exec.
    destruct (lock_until duration_minutes (clock w)); [|exact H].
    cbn [self row]. rewrite H. reflexivity.
  - exact H.
Qed.

Lemma session_keeps_saved_witness :
  self fresh = row fresh /\
  all_return [Increment; Lock 5; Increment] fresh = true /\
  self (run_calls [Increment; Lock 5; Increment] fresh)
    = row (run_calls [Increment; Lock 5; Increment] fresh).
Proof.
  split; [reflexivity|]. split; [reflexivity|].
  apply (session_keeps_saved [Increment; Lock 5; Increment] fresh);
    reflexivity.
Defined.

(** X13. Every writing call that returns has issued exactly one UPDATE,
    naming the columns it assigned and no other; waiting issues none.  The
    statements of a session whose calls all return are those of its calls,
    in order. *)
Theorem session_statements (cs : list Call) (w : World) :
  all_return cs w = true ->
  updates (run_calls cs w) = updates w ++ flat_map statement cs.
Proof.
  revert w. induction cs as [|c cs IH]; intros w Hr.
  - cbn. rewrite app_nil_r. reflexivity.
  - cbn [all_return] in Hr. apply andb_true_iff in Hr.
    destruct Hr as [Hc Hcs].
    rewrite run_calls_cons, (IH _ Hcs). cbn [flat_map]. rewrite app_assoc.
    f_equal. destruct c; cbn [call call_returns statement] in *.
    + rewrite increment_failed_logins_exec. reflexivity.
    + rewrite reset_failed_logins_exec. reflexivity.
    + rewrite lock_account_eval in Hc. rewrite lock_account_exec.
      destruct (lock_until duration_minutes (clock w));
        [reflexivity | discriminate].
    + cbn. rewrite app_nil_r. reflexivity.
Qed.

Lemma session_statements_witness :
  all_return [Increment; Lock 5; Wait 5000; Reset] fresh = true /\
  updates (run_calls [Increment; Lock 5; Wait 5000; Reset] fresh) =
    [[F_failed_login_attempts]; [F_locked_until];
     [F_failed_login_attempts; F_locked_until]].
Proof.
  split; [reflexivity|].
  apply (session_statements [Increment; Lock 5; Wait 5000; Reset] fresh).
  reflexivity.
Defined.

(** X14. The failure count is the number of failed logins recorded since
    the last reset: after any calls, a reset, and then calls [cs'] without a
    reset, it equals the number of [increment_failed_logins] calls in
    [cs'], locks and waiting not counting. *)
Theorem count_since_reset (cs cs' : list Call) (w : World) :
  forallb (fun c => negb (is_reset c)) cs' = true ->
  failed_login_attempts (self (run_calls (cs ++ Reset :: cs') w)) =
  Z.of_nat (List.length (filter is_increment cs')).
Proof.
  intros H. rewrite run_calls_app, run_calls_cons.
  rewrite (run_calls_no_reset cs' _ H). cbn [call].
  rewrite reset_failed_logins_exec.
  cbn [self set_field failed_login_attempts]. lia.
Qed.

Lemma count_since_reset_witness :
  forallb (fun c => negb (is_reset c)) [Increment; Lock 5; Increment] = true /\
  failed_login_attempts
    (self (run_calls ([Increment; Increment; Increment]
                        ++ Reset :: [Increment; Lock 5; Increment])
             locked_john)) = 2.
Proof.
  split; [reflexivity|].
  apply (count_since_reset [Increment; Increment; Increment]
           [Increment; Lock 5; Increment] locked_john).
  reflexivity.
Defined.

(** X15. A later lock can shorten an earlier one: for whole numbers of
    minutes whose windows end at representable instants, when the second
    window ends before the first would have, an active account can log in at
    a time after the second window's end at which the first lock alone still
    refuses it. *)
Theorem second_lock_shortens (w : World) (d1 d2 t1 t2 t : Z) :
  is_active (self w) = true ->
  representable t1 = true ->
  representable (t1 + d1 * 60000000) = true ->
  representable t2 = true ->
  representable (t2 + d2 * 60000000) = true ->
  t2 + d2 * 60000000 < t ->
  t <= t1 + d1 * 60000000 ->
  eval can_login (at_time t (exec (lock_account d1) (at_time t1 w))) = false /\
  eval can_login
    (at_time t (exec (lock_account d2)
                  (at_time t2 (exec (lock_account d1) (at_time t1 w)))))
    = true.
Proof.
  intros Ha R1 R1' R2 R2' H2 H1.
  rewrite !can_login_eq, !(lock_account_exec (Int d2)),
    !(lock_account_exec (Int d1)).
  cbn [at_time clock].
  rewrite (lock_until_Int d1 t1 R1 R1'), (lock_until_Int d2 t2 R2 R2').
  cbn [at_time self clock set_field locked_until is_active]. rewrite Ha.
  cbn [andb]. split.
  - apply Z.ltb_ge. lia.
  - apply Z.ltb_lt. lia.
Qed.

Lemma second_lock_shortens_witness :
  is_active (self fresh) = true /\
  representable 1000 = true /\
  representable (1000 + 30 * 60000000) = true /\
  representable 2000 = true /\
  representable (2000 + 1 * 60000000) = true /\
  2000 + 1 * 60000000 < 70000000 /\
  70000000 <= 1000 + 30 * 60000000 /\
  eval can_login (at_time 70000000 (exec (lock_account 30) (at_time 1000 fresh)))
    = false /\
  eval can_login
    (at_time 70000000
       (exec (lock_account 1)
          (at_time 2000 (exec (lock_account 30) (at_time 1000 fresh)))))
    = true.
Proof.
  split; [reflexivity|]. split; [reflexivity|]. split; [reflexivity|].
  split; [reflexivity|]. split; [reflexivity|]. split; [lia|]. split; [lia|].
  apply (second_lock_shortens fresh 30 1 1000 2000 70000000);
    [reflexivity | reflexivity | reflexivity | reflexivity | reflexivity
    | lia | lia].
Defined.

(** X22. Only [lock_account] locks: in a session without a call to it,
    an account that starts with [locked_until] null keeps it null, so an
    active one can log in, and is not locked, at the end, however many
    failed logins were recorded. *)
Theorem only_lock_account_locks (cs : list Call) (w : World) :
  locked_until (self w) = None ->
  forallb (fun c => negb (is_lock c)) cs = true ->
  locked_until (self (run_calls cs w)) = None /\
  eval is_account_locked (run_calls cs w) = false /\
  eval can_login (run_calls cs w) = is_active (self w).
Proof.
  intros Hl Hcs.
  assert (H : locked_until (self (run_calls cs w)) = None).
  { revert w Hl. induction cs as [|c cs IH]; intros w Hl; [exact Hl|].
    cbn [forallb] in Hcs. apply andb_true_iff in Hcs.
    destruct Hcs as [Hc Hcs]. rewrite run_calls_cons. apply (IH Hcs).
    destruct c; cbn [call]; try discriminate.
    - rewrite increment_failed_logins_exec. exact Hl.
    - rewrite reset_failed_logins_exec. reflexivity.
    - exact Hl. }
  split; [exact H|]. rewrite can_login_eq, is_account_locked_eq, H.
  split; [reflexivity|].
  destruct (run_calls_frame cs w F_is_active) as [Ha _];
    [discriminate | discriminate |].
  cbn [get_field] in Ha. rewrite Ha. apply andb_true_r.
Qed.

Lemma only_lock_account_locks_witness :
  locked_until (self fresh) = None /\
  forallb (fun c => negb (is_lock c))
    [Increment; Increment; Wait 5000; Increment] = true /\
  eval can_login (run_calls [Increment; Increment; Wait 5000; Increment] fresh)
    = true.
Proof.
  split; [reflexivity|]. split; [reflexivity|].
  destruct (only_lock_account_locks
              [Increment; Increment; Wait 5000; Increment] fresh)
    as [_ [_ H]]; [reflexivity | reflexivity |]. exact H.
Defined.

(** ** More on the name helpers *)

Section StripMore.

Lemma lstrip_id (s : pystr) :
  (forall c t, s = c :: t -> isspace c = false) -> lstrip s = s.
Proof.
  destruct s as [|c t]; intros H; [reflexivity|].
  simpl. rewrite (H c t eq_refl). reflexivity.
Qed.

Lemma rstrip_id (s : pystr) :
  (forall c t, s = t ++ [c] -> isspace c = false) -> rstrip s = s.
Proof.
  intros H. unfold rstrip. rewrite lstrip_id; [apply rev_involutive|].
  intros c t E. apply (H c (rev t)).
  rewrite <- (rev_involutive s), E. reflexivity.
Qed.

Lemma strip_id (s : pystr) : trimmed s -> strip s = s.
Proof.
  intros [Hh Hl]. unfold strip. rewrite (lstrip_id s Hh). apply rstrip_id.
  exact Hl.
Qed.

Lemma rstrip_snoc_space (s : pystr) (c : N) :
  isspace c = true -> rstrip (s ++ [c]) = rstrip s.
Proof.
  intros Hc. unfold rstrip. rewrite rev_app_distr. simpl. rewrite Hc.
  reflexivity.
Qed.

Lemma lstrip_app (a b : pystr) :
  lstrip a <> [] -> lstrip (a ++ b) = lstrip a ++ b.
Proof.
  induction a as [|c a IH]; simpl; [congruence|].
  destruct (isspace c); [exact IH | reflexivity].
Qed.

Lemma strip_snoc_space (s : pystr) (c : N) :
  isspace c = true -> strip (s ++ [c]) = strip s.
Proof.
  intros Hc. destruct (lstrip s) as [|x l] eqn:E.
  - assert (Hb : blank s) by (apply lstrip_nil_blank; exact E).
    assert (Hb' : blank (s ++ [c])).
    { apply blank_app. split; [exact Hb|]. constructor; [exact Hc|constructor]. }
    apply strip_nil_iff in Hb. apply strip_nil_iff in Hb'. congruence.
  - unfold strip. rewrite lstrip_app by congruence.
    apply rstrip_snoc_space. exact Hc.
Qed.

Lemma strip_length (s : pystr) : (List.length (strip s) <= List.length s)%nat.
Proof.
  destruct (strip_split s) as [l [r [_ [_ E]]]].
  rewrite E at 2. rewrite !length_app. lia.
Qed.

Lemma fmt_space_trimmed (a b : pystr) :
  trimmed a -> a <> [] -> trimmed b -> b <> [] -> trimmed (fmt_space a b).
Proof.
  intros [Ha _] Hna [_ Hb] Hnb. unfold fmt_space. split.
  - destruct a as [|x a']; [congruence|].
    intros c t E. simpl in E. injection E as <- _. exact (Ha x a' eq_refl).
  - destruct (exists_last Hnb) as [b' [z Ez]].
    intros c t E. rewrite Ez in E.
    change (a ++ 32%N :: b' ++ [z]) with (a ++ (32%N :: b') ++ [z]) in E.
    rewrite app_assoc in E. apply app_inj_tail in E. destruct E as [_ <-].
    exact (Hb z b' Ez).
Qed.

End StripMore.

(** X16. When both names are non-empty and already stripped (no whitespace
    at their ends), [get_full_name] is exactly the first name, one space and
    the last name: whitespace inside the names is kept. *)
Theorem full_name_exact (u : CustomUser) :
  strip (first_name u) = first_name u ->
  first_name u <> [] ->
  strip (last_name u) = last_name u ->
  last_name u <> [] ->
  get_full_name u = first_name u ++ 32%N :: last_name u.
Proof.
  intros H1 H2 H3 H4. unfold get_full_name.
  assert (T1 : trimmed (first_name u)) by (rewrite <- H1; apply strip_trimmed).
  assert (T3 : trimmed (last_name u)) by (rewrite <- H3; apply strip_trimmed).
  rewrite (strip_id _ (fmt_space_trimmed _ _ T1 H2 T3 H4)). reflexivity.
Qed.

Lemma full_name_exact_witness :
  strip (first_name john) = first_name john /\
  first_name john <> [] /\
  strip (last_name john) = last_name john /\
  last_name john <> [] /\
  get_full_name john = lit "John Doe".
Proof.
  split; [reflexivity|]. split; [discriminate|].
  split; [reflexivity|]. split; [discriminate|].
  apply (full_name_exact john); [reflexivity | discriminate | reflexivity
                                | discriminate].
Defined.

(** X17. With one of the names empty [get_full_name] is the other name
    stripped: the space between them does not show. *)
Theorem full_name_one_name (u : CustomUser) :
  get_full_name (set_field F_last_name [] u) = strip (first_name u) /\
  get_full_name (set_field F_first_name [] u) = strip (last_name u).
Proof.
  unfold get_full_name, fmt_space. cbn [set_field first_name last_name].
  split.
  - apply strip_snoc_space. reflexivity.
  - reflexivity.
Qed.

(** X18. [get_full_name] is stable under another [strip] and never longer
    than the two names and the space between them. *)
Theorem full_name_stable (u : CustomUser) :
  strip (get_full_name u) = get_full_name u /\
  (List.length (get_full_name u)
   <= List.length (first_name u) + 1 + List.length (last_name u))%nat.
Proof.
  unfold get_full_name. split.
  - apply strip_id, strip_trimmed.
  - pose proof (strip_length (fmt_space (first_name u) (last_name u))) as H.
    unfold fmt_space in H at 2. rewrite length_app in H. simpl in H. lia.
Qed.

(** X19. [get_short_name] is empty only when the first name and the
    username both are; it does not strip: a first name that begins with a
    space, even one of spaces only, is returned as it is and hides the
    username. *)
Theorem short_name_empty_iff (u : CustomUser) (s : pystr) :
  (get_short_name u = [] <-> first_name u = [] /\ username u = []) /\
  get_short_name (set_field F_first_name (32%N :: s) u) = 32%N :: s.
Proof.
  unfold get_short_name, or_. split; [|reflexivity].
  destruct (first_name u) as [|c t]; simpl.
  - split; [intros H; split; [reflexivity | exact H] | intros [_ H]; exact H].
  - split; [discriminate | intros [H _]; discriminate].
Qed.

(** ** Roles *)

Lemma pystr_eqb_true_iff (a b : pystr) : pystr_eqb a b = true <-> a = b.
Proof.
  unfold pystr_eqb. destruct (list_eq_dec N.eq_dec a b) as [E|E].
  - split; [intros _; exact E | reflexivity].
  - split; [discriminate | contradiction].
Qed.

Lemma has_role_In (groups : list pystr) (role_name : pystr) :
  has_role groups role_name = true <-> In role_name groups.
Proof.
  unfold has_role, filter_name. split.
  - destruct (filter (pystr_eqb role_name) groups) as [|g l] eqn:E;
      [discriminate|]. intros _.
    assert (H : In g (filter (pystr_eqb role_name) groups))
      by (rewrite E; left; reflexivity).
    apply filter_In in H. destruct H as [Hin Heq].
    apply pystr_eqb_true_iff in Heq. subst g. exact Hin.
  - intros Hin.
    assert (H : In role_name (filter (pystr_eqb role_name) groups)).
    { apply filter_In. split; [exact Hin|]. apply pystr_eqb_true_iff.
      reflexivity. }
    destruct (filter (pystr_eqb role_name) groups); [contradiction|].
    reflexivity.
Qed.

(** X20. [has_role] is true exactly when one of the user's groups has the
    name asked for; how often and where the name occurs does not matter, and
    a user without groups has no role. *)
Theorem has_role_iff (groups : list pystr) (role_name : pystr) :
  (has_role groups role_name = true <-> In role_name groups) /\
  has_role [] role_name = false /\
  has_role (groups ++ groups) role_name = has_role groups role_name /\
  has_role (rev groups) role_name = has_role groups role_name.
Proof.
  split; [apply has_role_In|]. split; [reflexivity|]. split.
  - destruct (has_role groups role_name) eqn:E.
    + apply has_role_In. apply in_or_app. left. apply has_role_In. exact E.
    + destruct (has_role (groups ++ groups) role_name) eqn:E'; [|reflexivity].
      apply has_role_In in E'. apply in_app_or in E'.
      assert (In role_name groups) by tauto.
      apply has_role_In in H. congruence.
  - destruct (has_role groups role_name) eqn:E.
    + apply has_role_In. apply in_rev. rewrite rev_involutive.
      apply has_role_In. exact E.
    + destruct (has_role (rev groups) role_name) eqn:E'; [|reflexivity].
      apply has_role_In in E'. apply in_rev in E'.
      apply has_role_In in E'. congruence.
Qed.

(** X21. [is_admin] is true exactly for a superuser or a member of the
    group named "Admin".  It reads no column but [is_superuser]: neither the
    [role] column, whatever it holds, nor [is_staff] nor [is_active] has a
    say. *)
Theorem is_admin_iff
  (u : CustomUser) (groups : list pystr) (f : Field) (v : field_type f) :
  f <> F_is_superuser ->
  (is_admin u groups = true <->
   is_superuser u = true \/ In (lit "Admin") groups) /\
  is_admin (set_field f v u) groups = is_admin u groups.
Proof.
  intros Hf. unfold is_admin. split.
  - rewrite orb_true_iff, has_role_In. reflexivity.
  - assert (H : is_superuser (set_field f v u) = is_superuser u)
      by exact (get_set_other F_is_superuser f v u (not_eq_sym Hf)).
    rewrite H. reflexivity.
Qed.

Lemma is_admin_iff_witness :
  F_role <> F_is_superuser /\
  is_admin (set_field F_role (Some (lit "Admin")) john) [lit "Manager"]
    = is_admin john [lit "Manager"] /\
  is_admin john [lit "Manager"] = false.
Proof.
  split; [discriminate|]. split; [|reflexivity].
  destruct (is_admin_iff john [lit "Manager"] F_role (Some (lit "Admin")))
    as [_ H]; [discriminate|]. exact H.
Defined.
